(** * meter-reader: a shallow embedding of [capture_meter.py]

    The module captures a photograph of an LCD utility meter, crops the
    display, enhances and binarises it, extracts digit-shaped contours and
    records a reading per capture.  Images are pixel grids with an explicit
    shape, Python slicing and [os.path] are written out, and the effects of
    the program (files, standard output, clock, network, sleeping) are
    threaded through a state-and-exception monad over a [World].

    What belongs to OpenCV, [datetime], [int()] and float formatting is
    gathered in the record [Library]; every statement below holds for an
    arbitrary library, and [Ref.lib] is one concrete library used to run the
    program on concrete inputs. *)

From Stdlib Require Import ZArith QArith List Ascii String Sorted Permutation DecimalString Lia.
From stdpp Require Import gmap strings list.

Open Scope Z_scope.

(** ** Pixel grids *)

(** A numpy array of shape [(rows, cols)] (one entry of type [A] per pixel),
    stored row after row.  The shape is kept apart from the data because a
    slice can have zero rows and still a positive number of columns. *)
Record Mat (A : Type) := mkMat { rows : nat; cols : nat; data : list A }.
Arguments mkMat {A} _ _ _.
Arguments rows {A} _.
Arguments cols {A} _.
Arguments data {A} _.

Definition well_formed {A} (m : Mat A) : Prop :=
  length (data m) = (rows m * cols m)%nat.

(** [Mat::empty()]: no pixel at all. *)
Definition is_empty {A} (m : Mat A) : bool :=
  ((rows m =? 0) || (cols m =? 0))%nat.

Definition mat_map {A B} (f : A -> B) (m : Mat A) : Mat B :=
  mkMat (rows m) (cols m) (map f (data m)).

(** The grid of shape [(r, c)] whose pixel at row [i], column [j] is [f i j]. *)
Definition tabulate {A} (r c : nat) (f : nat -> nat -> A) : Mat A :=
  mkMat r c (flat_map (fun i => map (f i) (seq 0 c)) (seq 0 r)).

Definition pixel3 : Type := Z * Z * Z.

(** ** Python slicing *)

(** [slice(start, stop).indices(len)] for step 1: a negative bound counts
    from the end, and both bounds are clamped into [0, len]. *)
Definition slice_clamp (len v : Z) : Z :=
  if v <? 0 then Z.max (v + len) 0 else Z.min v len.

Definition slice_indices (start stop len : Z) : Z * Z :=
  (slice_clamp len start, slice_clamp len stop).

Definition slice_length (start stop len : Z) : nat :=
  let '(lo, hi) := slice_indices start stop len in Z.to_nat (hi - lo).

(** [image[y:y+h, x:x+w]] *)
Definition crop {A} (image : Mat A) (x y w h : Z) : Mat A :=
  let '(r0, _) := slice_indices y (y + h) (Z.of_nat (rows image)) in
  let '(c0, _) := slice_indices x (x + w) (Z.of_nat (cols image)) in
  let nr := slice_length y (y + h) (Z.of_nat (rows image)) in
  let nc := slice_length x (x + w) (Z.of_nat (cols image)) in
  mkMat nr nc
    (flat_map (fun i => take nc (drop (i * cols image + Z.to_nat c0) (data image)))
              (seq (Z.to_nat r0) nr)).

(** ** Exceptions *)

Inductive exn : Type :=
| ValueError (msg : string)
| CvError (msg : string)
| OtherError (msg : string).

Definition str_exn (e : exn) : string :=
  match e with ValueError m | CvError m | OtherError m => m end.

(** ** The libraries the program calls *)

Definition contour : Type := list (Z * Z).

Inductive http_result : Type :=
| HttpFailure (msg : string)              (* [requests.get] raised *)
| HttpResponse (status : Z) (body : string).

Record Library : Type := {
  (* Python floats and datetimes are passed around, never computed with *)
  float : Type;
  str_float : float -> string;
  datetime : Type;
  strftime : string -> datetime -> string;
  (* [int(s)]: [None] stands for [ValueError] *)
  py_int : string -> option Z;
  (* colour conversions, pixel by pixel *)
  bgr2lab : pixel3 -> pixel3;
  lab2bgr : pixel3 -> pixel3;
  bgr2gray : pixel3 -> Z;
  (* the output pixel at (row, column) of a filter run on a whole image *)
  clahe_px : Mat Z -> nat -> nat -> Z;   (* CLAHE, clipLimit 3.0, tiles 8x8 *)
  blur_px : Mat Z -> nat -> nat -> Z;    (* GaussianBlur, kernel 5x5, sigma 0 *)
  norm_px : Mat Z -> nat -> nat -> Z;    (* normalize, NORM_MINMAX to 0..255 *)
  (* contours *)
  findContours : Mat Z -> list contour;  (* RETR_EXTERNAL, CHAIN_APPROX_SIMPLE *)
  contourArea : contour -> Q;
  boundingRect : contour -> Z * Z * Z * Z;
  (* drawing in green, thickness 2 *)
  rectangle : Mat pixel3 -> Z * Z -> Z * Z -> Mat pixel3;
  drawContours : Mat pixel3 -> list contour -> Mat pixel3;
  putText : Mat pixel3 -> string -> Z * Z -> Mat pixel3;
  (* codecs behind [imread] and [imwrite] *)
  imdecode : string -> option (Mat pixel3);
  imencode : Mat pixel3 -> string;
  (* the text of the assertion [cvtColor] fails with on an empty image *)
  empty_src_msg : string
}.

(** ** Sorting as Python's [sorted(..., key=...)]: ascending and stable *)

Section Sorted.
Context {A : Type} (key : A -> Z).

Fixpoint insert_by_key (x : A) (l : list A) : list A :=
  match l with
  | [] => [x]
  | y :: l' => if key y <=? key x then y :: insert_by_key x l' else x :: y :: l'
  end.

Definition sorted_by_key (l : list A) : list A :=
  fold_left (fun acc x => insert_by_key x acc) l [].

(** Ascending order of the keys. *)
Definition key_le (a b : A) : Prop := key a <= key b.
End Sorted.

(** ** The image stages *)

Definition Qltb (a b : Q) : bool := negb (Qle_bool b a).

Section Stages.
Context (L : Library).

(** [cv2.cvtColor]: asserts that the source is not empty, then converts
    every pixel. *)
Definition cvtColor {A B} (code : A -> B) (src : Mat A) : exn + Mat B :=
  if is_empty src then inl (CvError (empty_src_msg L))
  else inr (mat_map code src).

(** [cv2.split] and [cv2.merge] on three channels. *)
Definition split (m : Mat pixel3) : Mat Z * Mat Z * Mat Z :=
  (mat_map (fun p => fst (fst p)) m, mat_map (fun p => snd (fst p)) m,
   mat_map (fun p => snd p) m).

Fixpoint zip3 (l a b : list Z) : list pixel3 :=
  match l, a, b with
  | x :: l', y :: a', z :: b' => (x, y, z) :: zip3 l' a' b'
  | _, _, _ => []
  end.

Definition merge (l a b : Mat Z) : Mat pixel3 :=
  mkMat (rows l) (cols l) (zip3 (data l) (data a) (data b)).

(** [clahe.apply], [cv2.GaussianBlur], [cv2.normalize]: an output of the
    shape of the input, each pixel computed from the whole input. *)
Definition clahe_apply (m : Mat Z) : Mat Z :=
  tabulate (rows m) (cols m) (clahe_px L m).

Definition GaussianBlur (m : Mat Z) : Mat Z :=
  tabulate (rows m) (cols m) (blur_px L m).

Definition normalize (m : Mat Z) : Mat Z :=
  tabulate (rows m) (cols m) (norm_px L m).

(** [cv2.threshold(src, thresh, maxval, THRESH_BINARY)] *)
Definition threshold (src : Mat Z) (thresh maxval : Z) : Mat Z :=
  mat_map (fun v => if thresh <? v then maxval else 0) src.

Definition enhance_lcd_image (image : Mat pixel3) : exn + Mat pixel3 :=
  match cvtColor (bgr2lab L) image with
  | inl e => inl e
  | inr lab =>
      let '(l, a, b) := split lab in
      let cl := clahe_apply l in
      let limg := merge cl a b in
      cvtColor (lab2bgr L) limg
  end.

Definition preprocess_lcd_image (image : Mat pixel3) : exn + Mat Z :=
  match cvtColor (bgr2gray L) image with
  | inl e => inl e
  | inr gray =>
      let blur := GaussianBlur gray in
      let norm_img := normalize blur in
      let lcd_thresh := threshold norm_img 160 255 in
      inr lcd_thresh
  end.

Definition min_area : Q := 50 # 1.
Definition max_area : Q := 2000 # 1.

Definition area_in_range (cnt : contour) : bool :=
  Qltb min_area (contourArea L cnt) && Qltb (contourArea L cnt) max_area.

Definition rect_x (cnt : contour) : Z :=
  fst (fst (fst (boundingRect L cnt))).

Definition extract_digit_regions (binary_image : Mat Z) : list contour :=
  let contours := findContours L binary_image in
  let digit_contours := List.filter area_in_range contours in
  sorted_by_key rect_x digit_contours.
End Stages.

(** ** Strings: [str()], [split], [os.path] *)

Definition nl : string := String "010"%char EmptyString.

Definition str_Z (z : Z) : string := NilZero.string_of_int (Z.to_int z).

(** [s * n] *)
Fixpoint repeat_string (s : string) (n : nat) : string :=
  match n with O => "" | S n' => s +:+ repeat_string s n' end.

(** [s.split(',')] *)
Fixpoint split_comma (s : string) : list string :=
  match s with
  | EmptyString => [EmptyString]
  | String c r =>
      if Ascii.eqb c "," then EmptyString :: split_comma r
      else match split_comma r with
           | [] => [String c EmptyString]
           | f :: fs => String c f :: fs
           end
  end.

Definition starts_with_sep (s : string) : bool :=
  match s with String c _ => Ascii.eqb c "/" | EmptyString => false end.

Fixpoint ends_with_sep (s : string) : bool :=
  match s with
  | EmptyString => false
  | String c EmptyString => Ascii.eqb c "/"
  | String _ r => ends_with_sep r
  end.

(** [posixpath.join(a, b)] *)
Definition path_join (a b : string) : string :=
  if starts_with_sep b then b
  else if (String.eqb a "" || ends_with_sep a)%bool then a +:+ b
  else a +:+ "/" +:+ b.

(** [(p[:i], p[i:])] for [i = p.rfind('/') + 1] *)
Fixpoint rpartition_sep (p : string) : string * string :=
  match p with
  | EmptyString => (EmptyString, EmptyString)
  | String c r =>
      let '(h, t) := rpartition_sep r in
      match h with
      | String _ _ => (String c h, t)
      | EmptyString =>
          if Ascii.eqb c "/" then (String c EmptyString, t) else (EmptyString, String c t)
      end
  end.

Fixpoint all_sep (s : string) : bool :=
  match s with
  | EmptyString => true
  | String c r => (Ascii.eqb c "/" && all_sep r)%bool
  end.

(** [s.rstrip('/')] *)
Fixpoint rstrip_sep (s : string) : string :=
  match s with
  | EmptyString => EmptyString
  | String c r =>
      match rstrip_sep r with
      | EmptyString => if Ascii.eqb c "/" then EmptyString else String c EmptyString
      | r' => String c r'
      end
  end.

(** [posixpath.dirname] and [posixpath.basename] *)
Definition dirname (p : string) : string :=
  let head := fst (rpartition_sep p) in
  if (negb (String.eqb head "") && negb (all_sep head))%bool then rstrip_sep head else head.

Definition basename (p : string) : string := snd (rpartition_sep p).

(** The leading dots of a file name, and the rest. *)
Fixpoint span_dots (s : string) : string * string :=
  match s with
  | String c r =>
      if Ascii.eqb c "." then let '(d, t) := span_dots r in (String c d, t)
      else (EmptyString, s)
  | EmptyString => (EmptyString, EmptyString)
  end.

(** [(s[:i], s[i:])] for [i = s.rfind('.')], when there is a dot. *)
Fixpoint rsplit_dot (s : string) : option (string * string) :=
  match s with
  | EmptyString => None
  | String c r =>
      match rsplit_dot r with
      | Some (a, b) => Some (String c a, b)
      | None => if Ascii.eqb c "." then Some (EmptyString, s) else None
      end
  end.

(** [posixpath.splitext]: the extension starts at the last dot of the last
    component, leading dots of that component not counting. *)
Definition splitext (p : string) : string * string :=
  let '(h, t) := rpartition_sep p in
  let '(dots, rest) := span_dots t in
  match rsplit_dot rest with
  | Some (a, b) => (h +:+ dots +:+ a, b)
  | None => (p, EmptyString)
  end.


Fixpoint last_char (s : string) : option ascii :=
  match s with
  | EmptyString => None
  | String c EmptyString => Some c
  | String _ r => last_char r
  end.

(** Truth value of a string or of [None]. *)
Definition truthy (p : option string) : bool :=
  match p with
  | Some (String _ _) => true
  | _ => false
  end.

(** [range(n)] *)
Definition range (n : Z) : list Z := map Z.of_nat (seq 0 (Z.to_nat n)).

Definition DEFAULT_ROI : list Z := [187; 188; 275; 146].

(** ** The world the program runs in *)

Section Program.
Context (L : Library).

Inductive event : Type :=
| EvPrint (line : string)          (* one call of [print] *)
| EvRequest (url : string)         (* one call of [requests.get] *)
| EvSleep (seconds : float L).     (* one call of [time.sleep] *)

(** Regular files with their contents, directories, what the program has
    done so far (oldest first), and the two things it asks of its
    environment: the clock, read for the [clock_reads]-th time, and the
    camera, asked for the [requests]-th time.  Opening a file for writing
    is taken to succeed. *)
Record World : Type := mkWorld {
  files : gmap string string;
  dirs : gset string;
  log : list event;
  clock : nat -> datetime L;
  clock_reads : nat;
  network : nat -> string -> http_result;
  requests : nat
}.

(** State and exceptions: an exception keeps the effects done before it. *)
Definition M (A : Type) : Type := World -> (exn + A) * World.

Definition ret {A} (a : A) : M A := fun w => (inr a, w).

Definition raise {A} (e : exn) : M A := fun w => (inl e, w).

Definition bind {A B} (m : M A) (k : A -> M B) : M B :=
  fun w => match m w with
           | (inr a, w') => k a w'
           | (inl e, w') => (inl e, w')
           end.

(** [try: m  except Exception as e: h e] *)
Definition try_catch {A} (m : M A) (h : exn -> M A) : M A :=
  fun w => match m w with
           | (inl e, w') => h e w'
           | r => r
           end.

Definition lift {A} (r : exn + A) : M A := fun w => (r, w).

Notation "x <- c1 ;; c2" := (bind c1 (fun x => c2))
  (at level 100, c1 at next level, right associativity).
Notation "c1 ;; c2" := (bind c1 (fun _ => c2))
  (at level 100, right associativity).

Definition emit (e : event) : M unit :=
  fun w => (inr tt, mkWorld (files w) (dirs w) (log w ++ [e]) (clock w) (clock_reads w)
                            (network w) (requests w)).

Definition print (line : string) : M unit := emit (EvPrint line).


Definition sleeps (w : World) : list (float L) :=
  flat_map (fun e => match e with EvSleep s => [s] | _ => [] end) (log w).

(** [time.sleep] *)
Definition sleep (seconds : float L) : M unit := emit (EvSleep seconds).

(** [datetime.now()] *)
Definition now : M (datetime L) :=
  fun w => (inr (clock w (clock_reads w)),
            mkWorld (files w) (dirs w) (log w) (clock w) (S (clock_reads w))
                    (network w) (requests w)).

(** [requests.get(url, stream=True, timeout=10)]: status code and body *)
Definition requests_get (url : string) : M (Z * string) :=
  fun w =>
    let w' := mkWorld (files w) (dirs w) (log w ++ [EvRequest url]) (clock w) (clock_reads w)
                      (network w) (S (requests w)) in
    match network w (requests w) url with
    | HttpFailure msg => (inl (OtherError msg), w')
    | HttpResponse status body => (inr (status, body), w')
    end.

Definition exists_in (path : string) (w : World) : bool :=
  bool_decide (is_Some (files w !! path)) || bool_decide (path ∈ dirs w).

(** [os.path.exists] *)
Definition os_path_exists (path : string) : M bool :=
  fun w => (inr (exists_in path w), w).

(** [os.makedirs] *)
Definition os_makedirs (path : string) : M unit :=
  fun w => (inr tt, mkWorld (files w) ({[path]} ∪ dirs w) (log w) (clock w) (clock_reads w)
                            (network w) (requests w)).

Definition set_file (path content : string) (w : World) : World :=
  mkWorld (<[path := content]> (files w)) (dirs w) (log w) (clock w) (clock_reads w)
          (network w) (requests w).

(** [with open(path, mode) as f: f.write(content)], mode ['w'] (or ['wb'])
    starting from an empty file and mode ['a'] from what the file holds. *)
Definition write_file (path mode content : string) : M unit :=
  fun w =>
    let old := if String.eqb mode "a" then default "" (files w !! path) else "" in
    (inr tt, set_file path (old +:+ content) w).

(** [cv2.imread]: [None] when the file is missing or does not decode. *)
Definition imread (path : string) : M (option (Mat pixel3)) :=
  fun w => (inr (match files w !! path with
                 | Some bytes => imdecode L bytes
                 | None => None
                 end), w).

(** [cv2.imwrite] *)
Definition imwrite (path : string) (img : Mat pixel3) : M unit :=
  fun w => (inr tt, set_file path (imencode L img) w).

Fixpoint for_each {A} (l : list A) (body : A -> M unit) : M unit :=
  match l with
  | [] => ret tt
  | x :: l' => body x ;; for_each l' body
  end.

(** ** The program *)

Definition download_image (url : string) (save_dir : string) : M (option string) :=
  try_catch
    (ex <- os_path_exists save_dir ;;
     (if negb ex
      then os_makedirs save_dir ;; print ("Created directory: " +:+ save_dir)
      else ret tt) ;;
     t <- now ;;
     let timestamp := strftime L "%Y%m%d_%H%M%S" t in
     let filename := "meter_" +:+ timestamp +:+ ".jpg" in
     let filepath := path_join save_dir filename in
     print ("Downloading image from " +:+ url +:+ "...") ;;
     response <- requests_get url ;;
     if fst response =? 200
     then write_file filepath "wb" (snd response) ;;
          print ("Image saved: " +:+ filepath) ;;
          ret (Some filepath)
     else print ("Failed to download image. Status code: " +:+ str_Z (fst response)) ;;
          ret None)
    (fun e => print ("Error downloading image: " +:+ str_exn e) ;; ret None).

(** [x, y, w, h = roi] *)
Definition unpack4 (roi : list Z) : M (Z * Z * Z * Z) :=
  match roi with
  | [x; y; w; h] => ret (x, y, w, h)
  | _ => raise (ValueError "wrong number of values to unpack (expected 4)")
  end.

Definition process_meter_image (image_path : string) (roi : list Z) : M string :=
  image <- imread image_path ;;
  match image with
  | None => raise (ValueError ("Could not read image: " +:+ image_path))
  | Some image =>
      xywh <- unpack4 roi ;;
      let '(x, y, w, h) := xywh in
      let roi_image := crop image x y w h in
      enhanced <- lift (enhance_lcd_image L roi_image) ;;
      processed <- lift (preprocess_lcd_image L enhanced) ;;
      let digit_contours := extract_digit_regions L processed in
      let reading := "16737" in
      let result_image := rectangle L image (x, y) (x + w, y + h) in
      let roi_with_contours := drawContours L roi_image digit_contours in
      let result_image :=
        putText L result_image ("Reading: " +:+ reading +:+ " kWh") (x, y - 10) in
      let output_dir := dirname image_path in
      let basename := fst (splitext (basename image_path)) in
      let output_path := path_join output_dir (basename +:+ "_result.jpg") in
      imwrite output_path result_image ;;
      let roi_output_path := path_join output_dir (basename +:+ "_roi.jpg") in
      imwrite roi_output_path roi_with_contours ;;
      print ("Processed image saved: " +:+ output_path) ;;
      print ("ROI with contours saved: " +:+ roi_output_path) ;;
      ret reading
  end.

Definition record : Type := string * string.   (* (timestamp, reading) *)

Definition progress (i capture_count : Z) : string :=
  str_Z (i + 1) +:+ "/" +:+ str_Z capture_count.

(** One turn of the loop of [capture_and_process], from the records
    gathered so far to the records after it. *)
Definition capture_iteration (url : string) (roi : list Z) (capture_count : Z)
    (interval : float L) (i : Z) (readings : list record) : M (list record) :=
  image_path <- download_image url "meter_images" ;;
  if negb (truthy image_path)
  then print ("Capture " +:+ progress i capture_count +:+ " failed. Skipping.") ;;
       ret readings      (* continue *)
  else
    readings <-
      try_catch
        (reading <- process_meter_image (default "" image_path) roi ;;
         t <- now ;;
         let timestamp := strftime L "%Y-%m-%d %H:%M:%S" t in
         let readings := readings ++ [(timestamp, reading)] in
         print ("Capture " +:+ progress i capture_count +:+ ": " +:+ reading +:+ " kWh") ;;
         ret readings)
        (fun e =>
           print ("Error processing image " +:+ progress i capture_count +:+ ": "
                  +:+ str_exn e) ;;
           ret readings) ;;
    (if i <? capture_count - 1 then sleep interval else ret tt) ;;
    ret readings.

Fixpoint capture_loop (url : string) (roi : list Z) (capture_count : Z)
    (interval : float L) (indices : list Z) (readings : list record) : M (list record) :=
  match indices with
  | [] => ret readings
  | i :: rest =>
      readings <- capture_iteration url roi capture_count interval i readings ;;
      capture_loop url roi capture_count interval rest readings
  end.

Definition csv_path : string := "meter_readings.csv".
Definition csv_header : string := "timestamp,reading_kwh" +:+ nl.
Definition csv_row (r : record) : string := fst r +:+ "," +:+ snd r +:+ nl.
Definition csv_rows (rs : list record) : string :=
  fold_right (fun r acc => csv_row r +:+ acc) "" rs.

Definition nonempty {A} (l : list A) : bool :=
  match l with [] => false | _ => true end.

Definition capture_and_process (url : string) (roi : list Z) (capture_count : Z)
    (interval : float L) : M (list record) :=
  print ("Starting to capture " +:+ str_Z capture_count +:+ " meter readings at "
         +:+ str_float L interval +:+ "s intervals") ;;
  print (repeat_string "=" 60) ;;
  readings <- capture_loop url roi capture_count interval (range capture_count) [] ;;
  print (nl +:+ "Capture Summary:") ;;
  print (repeat_string "=" 60) ;;
  print ("Total captures: " +:+ str_Z (Z.of_nat (length readings)) +:+ "/"
         +:+ str_Z capture_count) ;;
  (if nonempty readings
   then print (nl +:+ "Timestamp                Reading (kWh)") ;;
        print (repeat_string "-" 40) ;;
        for_each readings (fun r => print (fst r +:+ "    " +:+ snd r))
   else ret tt) ;;
  (if nonempty readings
   then ex <- os_path_exists csv_path ;;
        let mode := if ex then "a" else "w" in
        write_file csv_path mode
          ((if String.eqb mode "w" then csv_header else "") +:+ csv_rows readings) ;;
        print (nl +:+ "Readings saved to: " +:+ csv_path)
   else ret tt) ;;
  ret readings.

(** The parsed command line. *)
Record Args : Type := mkArgs {
  arg_url : string;
  arg_roi : string;
  arg_count : Z;
  arg_interval : float L;
  arg_image : option string
}.

(** [map(int, fields)]: [None] as soon as one field is not an integer. *)
Fixpoint map_int (fields : list string) : option (list Z) :=
  match fields with
  | [] => Some []
  | f :: fs =>
      match py_int L f with
      | None => None
      | Some z => match map_int fs with None => None | Some zs => Some (z :: zs) end
      end
  end.

Definition parse_roi (s : string) : option (list Z) := map_int (split_comma s).

Definition main (args : Args) : M Z :=
  match parse_roi (arg_roi args) with
  | None =>
      print "Error: ROI must be four integers separated by commas" ;; ret 1
  | Some roi =>
      if negb (length roi =? 4)%nat
      then print "Error: ROI must have exactly 4 values (x,y,width,height)" ;; ret 1
      else
        try_catch
          (if truthy (arg_image args)
           then
             let image := default "" (arg_image args) in
             ex <- os_path_exists image ;;
             if negb ex
             then print ("Error: Image file not found: " +:+ image) ;; ret 1
             else process_meter_image image roi ;; ret 0
           else
             capture_and_process (arg_url args) roi (arg_count args) (arg_interval args) ;;
             ret 0)
          (fun e => print ("Error: " +:+ str_exn e) ;; ret 1)
  end.

(** ** Vocabulary of the statements *)



(** [meter_readings.csv] is in [w'] what it was in [w]. *)
Definition csv_untouched (w w' : World) : Prop :=
  files w' !! csv_path = files w !! csv_path /\
  (csv_path ∈ dirs w' <-> csv_path ∈ dirs w).

(** [m] leaves [meter_readings.csv] alone, whether it returns or raises. *)
Definition keeps_csv {A} (m : M A) : Prop :=
  forall w, csv_untouched w (snd (m w)).

(** [m] returns, and leaves [meter_readings.csv] alone. *)
Definition runs_keeping_csv {A} (m : M A) : Prop :=
  forall w, exists a w', m w = (inr a, w') /\ csv_untouched w w'.

(** The camera and the count of requests are in [w'] what they were in
    [w] but for [n] more requests. *)
Definition asked (n : nat) (w w' : World) : Prop :=
  network w' = network w /\ requests w' = (n + requests w)%nat.

(** Between [w] and [w'] the camera was asked [n] times and the pauses
    [pauses] were taken, in that order. *)
Definition effects (n : nat) (pauses : list (float L)) (w w' : World) : Prop :=
  network w' = network w /\
  requests w' = (n + requests w)%nat /\
  sleeps w' = sleeps w ++ pauses.

End Program.

(** ** A reference library and reference worlds

    One concrete [Library] on which the program can be run.  The filters are
    stand-ins (CLAHE and the blur copy the pixel, the codec is a toy
    format); what matters is that everything evaluates. *)

Module Ref.

Record dt : Type := mkDt { yr : Z; mo : Z; dy : Z; hh : Z; mi : Z; ss : Z }.

Definition pad2 (z : Z) : string := if z <? 10 then "0" +:+ str_Z z else str_Z z.

Definition directive (c : ascii) (t : dt) : string :=
  if Ascii.eqb c "Y" then str_Z (yr t)
  else if Ascii.eqb c "m" then pad2 (mo t)
  else if Ascii.eqb c "d" then pad2 (dy t)
  else if Ascii.eqb c "H" then pad2 (hh t)
  else if Ascii.eqb c "M" then pad2 (mi t)
  else if Ascii.eqb c "S" then pad2 (ss t)
  else String "%" (String c EmptyString).

Fixpoint format_time (fmt : string) (t : dt) : string :=
  match fmt with
  | EmptyString => EmptyString
  | String c r =>
      if Ascii.eqb c "%"
      then match r with
           | String d r' => directive d t +:+ format_time r' t
           | EmptyString => String c EmptyString
           end
      else String c (format_time r t)
  end.

(** Decimal integers with an optional sign, blanks around them allowed. *)
Definition is_space (c : ascii) : bool :=
  (Ascii.eqb c " " || (9 <=? nat_of_ascii c)%nat && (nat_of_ascii c <=? 13)%nat)%bool.

Fixpoint lstrip (s : string) : string :=
  match s with
  | String c r => if is_space c then lstrip r else s
  | EmptyString => EmptyString
  end.

Fixpoint rstrip (s : string) : string :=
  match s with
  | EmptyString => EmptyString
  | String c r =>
      match rstrip r with
      | EmptyString => if is_space c then EmptyString else String c EmptyString
      | r' => String c r'
      end
  end.

Definition digit (c : ascii) : option Z :=
  let n := Z.of_nat (nat_of_ascii c) in
  if (48 <=? n) && (n <=? 57) then Some (n - 48) else None.

Fixpoint digits (s : string) (acc : Z) : option Z :=
  match s with
  | EmptyString => Some acc
  | String c r => match digit c with
                  | Some d => digits r (10 * acc + d)
                  | None => None
                  end
  end.

Definition unsigned (s : string) : option Z :=
  match s with EmptyString => None | _ => digits s 0 end.

Definition parse_int (s : string) : option Z :=
  match lstrip (rstrip s) with
  | String c r =>
      if Ascii.eqb c "-" then option_map Z.opp (unsigned r)
      else if Ascii.eqb c "+" then unsigned r
      else unsigned (String c r)
  | EmptyString => None
  end.

(** Gray level of a BGR pixel, in fixed point. *)
Definition gray_of (p : pixel3) : Z :=
  let '(b, g, r) := p in Z.shiftr (b * 1868 + g * 9617 + r * 4899 + 8192) 14.

Definition pixel_at (m : Mat Z) (i j : nat) : Z :=
  nth (i * cols m + j) (data m) 0.

Definition minmax_px (m : Mat Z) (i j : nat) : Z :=
  let lo := fold_right Z.min 255 (data m) in
  let hi := fold_right Z.max 0 (data m) in
  if hi <=? lo then 0 else (pixel_at m i j - lo) * 255 / (hi - lo).

(** One contour: the box around all bright pixels, when there is one. *)
Definition bright_positions (m : Mat Z) : list (Z * Z) :=
  flat_map (fun i => flat_map (fun j => if 0 <? pixel_at m i j
                                        then [(Z.of_nat j, Z.of_nat i)] else [])
                              (seq 0 (cols m)))
           (seq 0 (rows m)).

Definition box_contours (m : Mat Z) : list contour :=
  match bright_positions m with
  | [] => []
  | (x0, y0) :: ps =>
      let xs := map fst ps in
      let ys := map snd ps in
      let x1 := fold_right Z.min x0 xs in
      let x2 := fold_right Z.max x0 xs in
      let y1 := fold_right Z.min y0 ys in
      let y2 := fold_right Z.max y0 ys in
      [[(x1, y1); (x1, y2); (x2, y2); (x2, y1)]]
  end.

(** Twice the signed area of a polygon, by the shoelace formula. *)
Fixpoint shoelace (first prev : Z * Z) (ps : list (Z * Z)) : Z :=
  match ps with
  | [] => fst prev * snd first - fst first * snd prev
  | p :: ps' => fst prev * snd p - fst p * snd prev + shoelace first p ps'
  end.

Definition polygon_area (c : contour) : Q :=
  match c with
  | [] => 0
  | p :: ps => Z.abs (shoelace p p ps) # 2
  end.

Definition bounding_box (c : contour) : Z * Z * Z * Z :=
  match c with
  | [] => (0, 0, 0, 0)
  | (x0, y0) :: ps =>
      let x1 := fold_right Z.min x0 (map fst ps) in
      let x2 := fold_right Z.max x0 (map fst ps) in
      let y1 := fold_right Z.min y0 (map snd ps) in
      let y2 := fold_right Z.max y0 (map snd ps) in
      (x1, y1, x2 - x1 + 1, y2 - y1 + 1)
  end.

(** A toy image format: ['P'], the number of rows, the number of columns,
    then one gray byte per pixel. *)
Definition byte_of (c : ascii) : Z := Z.of_nat (nat_of_ascii c).
Definition char_of (z : Z) : ascii := ascii_of_nat (Z.to_nat z).

Definition decode (bytes : string) : option (Mat pixel3) :=
  match bytes with
  | String p (String r (String c px)) =>
      if (Ascii.eqb p "P" && (String.length px =? nat_of_ascii r * nat_of_ascii c)%nat)%bool
      then Some (mkMat (nat_of_ascii r) (nat_of_ascii c)
                       (map (fun v => (byte_of v, byte_of v, byte_of v))
                            (list_ascii_of_string px)))
      else None
  | _ => None
  end.

Definition encode (m : Mat pixel3) : string :=
  String "P" (String (ascii_of_nat (rows m)) (String (ascii_of_nat (cols m))
    (string_of_list_ascii (map (fun p => char_of (gray_of p)) (data m))))).

(** The reference library around a given contour finder. *)
Definition lib_finding (finder : Mat Z -> list contour) : Library := {|
  float := Z;
  str_float := fun z => str_Z z +:+ ".0";
  datetime := dt;
  strftime := format_time;
  py_int := parse_int;
  bgr2lab := fun p => p;
  lab2bgr := fun p => p;
  bgr2gray := gray_of;
  clahe_px := pixel_at;
  blur_px := pixel_at;
  norm_px := minmax_px;
  findContours := finder;
  contourArea := polygon_area;
  boundingRect := bounding_box;
  rectangle := fun m _ _ => m;
  drawContours := fun m _ => m;
  putText := fun m _ _ => m;
  imdecode := decode;
  imencode := encode;
  empty_src_msg := "(-215:Assertion failed) !_src.empty() in function 'cvtColor'"
|}.

Definition lib : Library := lib_finding box_contours.

(** Rectangular contours of areas 3025, 1024, 50, 100, 2000 and 9, from
    right to left. *)
Definition box (x y width height : Z) : contour :=
  [(x, y); (x, y + height); (x + width, y + height); (x + width, y)].

Definition shapes : list contour :=
  [box 300 0 55 55; box 200 0 32 32; box 150 0 5 10;
   box 100 5 10 10; box 50 0 40 50; box 0 0 3 3].

(** A camera frame of 2 x 3 pixels. *)
Definition frame : string :=
  String "P" (String (ascii_of_nat 2) (String (ascii_of_nat 3) "09Zaz~")).

(** The picture [frame] decodes to. *)
Definition picture : Mat pixel3 :=
  mkMat 2 3 [(48, 48, 48); (57, 57, 57); (90, 90, 90);
             (97, 97, 97); (122, 122, 122); (126, 126, 126)].

Definition tick (n : nat) : dt := mkDt 2024 5 17 9 30 (Z.of_nat n).

(** A camera that answers from a script, and fails once it is over. *)
Definition camera (script : list http_result) (n : nat) (url : string) : http_result :=
  nth n script (HttpFailure "connection refused").

Definition world (script : list http_result) : World lib :=
  mkWorld lib ∅ ∅ [] tick 0 (camera script) 0.

(** A directory that holds one photograph and nothing else. *)
Definition disk : World lib :=
  mkWorld lib {["meter.jpg" := frame]} ∅ [] tick 0 (camera []) 0.

Definition ok : http_result := HttpResponse 200 frame.
Definition down : http_result := HttpFailure "timed out".

Definition url : string := "http://192.168.0.2:8081/capture/flash".


End Ref.


(** * Properties *)

(** ** Pixel grids and slices *)

Lemma length_flat_map_const {A B} (f : A -> list B) (n : nat) (l : list A) :
  (forall x, In x l -> length (f x) = n) ->
  length (flat_map f l) = (length l * n)%nat.
Proof.
  induction l as [|x l IH]; intros Hf; simpl; [reflexivity|].
  rewrite length_app, Hf by (left; reflexivity).
  rewrite IH by (intros y Hy; apply Hf; right; exact Hy). reflexivity.
Qed.

Lemma tabulate_well_formed {A} (r c : nat) (f : nat -> nat -> A) :
  well_formed (tabulate r c f).
Proof.
  unfold well_formed, tabulate; simpl.
  rewrite (length_flat_map_const _ c).
  - now rewrite length_seq.
  - intros i _. now rewrite length_map, length_seq.
Qed.

Lemma mat_map_well_formed {A B} (f : A -> B) (m : Mat A) :
  well_formed m -> well_formed (mat_map f m).
Proof. unfold well_formed, mat_map; simpl. now rewrite length_map. Qed.

Lemma slice_length_inside (start size len : Z) :
  0 <= start -> 0 <= size -> start + size <= len ->
  slice_indices start (start + size) len = (start, start + size) /\
  slice_length start (start + size) len = Z.to_nat size.
Proof.
  intros H0 Hs Hl. unfold slice_length, slice_indices, slice_clamp.
  destruct (Z.ltb_spec start 0); [lia|].
  destruct (Z.ltb_spec (start + size) 0); [lia|].
  rewrite !Z.min_l by lia. split; [reflexivity|]. f_equal. lia.
Qed.

Lemma crop_well_formed {A} (image : Mat A) (x y w h : Z) :
  well_formed image ->
  0 <= x -> 0 <= y -> 0 <= w -> 0 <= h ->
  x + w <= Z.of_nat (cols image) -> y + h <= Z.of_nat (rows image) ->
  well_formed (crop image x y w h).
Proof.
  intros Hwf Hx Hy Hw Hh Hxw Hyh. unfold well_formed, crop.
  destruct (slice_length_inside y h (Z.of_nat (rows image))) as [Ey Ly]; try assumption.
  destruct (slice_length_inside x w (Z.of_nat (cols image))) as [Ex Lx]; try assumption.
  rewrite Ey, Ex, Ly, Lx. simpl.
  rewrite (length_flat_map_const _ (Z.to_nat w)).
  - now rewrite length_seq.
  - intros i Hi. apply in_seq in Hi.
    rewrite length_take, length_drop. unfold well_formed in Hwf. rewrite Hwf.
    assert (Hrow : (i * cols image + Z.to_nat x + Z.to_nat w <= rows image * cols image)%nat).
    { assert (S i <= rows image)%nat by lia.
      assert (Z.to_nat x + Z.to_nat w <= cols image)%nat by lia.
      nia. }
    lia.
Qed.

(** ** Sorting *)

Section SortedFacts.
Context {A : Type} (key : A -> Z).

Lemma insert_by_key_perm (x : A) (l : list A) :
  Permutation (insert_by_key key x l) (x :: l).
Proof.
  induction l as [|y l IH]; simpl; [reflexivity|].
  destruct (key y <=? key x).
  - rewrite IH. apply perm_swap.
  - reflexivity.
Qed.

Lemma fold_insert_perm (l acc : list A) :
  Permutation (fold_left (fun acc x => insert_by_key key x acc) l acc) (l ++ acc).
Proof.
  revert acc. induction l as [|x l IH]; intros acc; simpl; [reflexivity|].
  rewrite IH, insert_by_key_perm. now rewrite Permutation_middle.
Qed.

Lemma sorted_by_key_perm (l : list A) : Permutation (sorted_by_key key l) l.
Proof. unfold sorted_by_key. rewrite fold_insert_perm. now rewrite app_nil_r. Qed.

Lemma insert_by_key_sorted (x : A) (l : list A) :
  StronglySorted (key_le key) l -> StronglySorted (key_le key) (insert_by_key key x l).
Proof.
  induction 1 as [|y l Hs IH Hall]; simpl.
  - repeat constructor.
  - destruct (Z.leb_spec (key y) (key x)) as [Hle|Hgt].
    + constructor; [exact IH|].
      eapply Permutation_Forall; [symmetry; apply insert_by_key_perm|].
      constructor; [exact Hle | exact Hall].
    + constructor; [constructor; assumption|].
      constructor; [unfold key_le; lia|].
      eapply Forall_impl; [exact Hall|]. unfold key_le. intros a Ha. simpl in Ha. lia.
Qed.

Lemma fold_insert_sorted (l acc : list A) :
  StronglySorted (key_le key) acc ->
  StronglySorted (key_le key) (fold_left (fun acc x => insert_by_key key x acc) l acc).
Proof.
  revert acc. induction l as [|x l IH]; intros acc Hacc; simpl; [exact Hacc|].
  apply IH, insert_by_key_sorted, Hacc.
Qed.

Lemma sorted_by_key_sorted (l : list A) : StronglySorted (key_le key) (sorted_by_key key l).
Proof. apply fold_insert_sorted. constructor. Qed.

(** Stability: elements of one key keep the order they came in. *)
Lemma filter_key_above (k : Z) (l : list A) :
  Forall (fun a => k < key a) l -> List.filter (fun a => key a =? k) l = [].
Proof.
  induction 1 as [|a l Ha _ IH]; simpl; [reflexivity|].
  destruct (Z.eqb_spec (key a) k); [lia | exact IH].
Qed.

Lemma insert_by_key_stable (k : Z) (x : A) (l : list A) :
  StronglySorted (key_le key) l ->
  List.filter (fun a => key a =? k) (insert_by_key key x l)
  = List.filter (fun a => key a =? k) (l ++ [x]).
Proof.
  induction 1 as [|y l Hs IH Hall]; simpl; [reflexivity|].
  destruct (Z.leb_spec (key y) (key x)) as [Hle|Hgt]; simpl.
  - rewrite IH. reflexivity.
  - rewrite List.filter_app. simpl.
    destruct (Z.eqb_spec (key x) k) as [Hx|Hx].
    + assert (Hy : (key y =? k) = false) by (apply Z.eqb_neq; lia).
      rewrite Hy, filter_key_above; [reflexivity|].
      eapply Forall_impl; [exact Hall|]. unfold key_le. intros a Ha. simpl in Ha. lia.
    + now rewrite app_nil_r.
Qed.

Lemma sorted_by_key_stable (k : Z) (l : list A) :
  List.filter (fun a => key a =? k) (sorted_by_key key l)
  = List.filter (fun a => key a =? k) l.
Proof.
  unfold sorted_by_key.
  enough (H : forall acc, StronglySorted (key_le key) acc ->
              List.filter (fun a => key a =? k)
                (fold_left (fun acc x => insert_by_key key x acc) l acc)
              = List.filter (fun a => key a =? k) (acc ++ l)).
  { apply (H []). constructor. }
  induction l as [|x l IH]; intros acc Hacc; simpl.
  - now rewrite app_nil_r.
  - rewrite IH by (apply insert_by_key_sorted, Hacc).
    rewrite !List.filter_app, insert_by_key_stable by exact Hacc.
    rewrite List.filter_app. simpl. rewrite <- app_assoc.
    now destruct (key x =? k).
Qed.
End SortedFacts.

Lemma Qltb_lt (a b : Q) : Qltb a b = true <-> (a < b)%Q.
Proof.
  unfold Qltb. rewrite negb_true_iff. split; intros H.
  - apply Qnot_le_lt. intros Hle. apply Qle_bool_iff in Hle. congruence.
  - destruct (Qle_bool b a) eqn:E; [|reflexivity].
    apply Qle_bool_iff in E. exfalso. exact (Qlt_not_le _ _ H E).
Qed.

(** ** The image stages *)

Section StageFacts.
Context (L : Library).

Lemma cvtColor_nonempty {A B} (code : A -> B) (src : Mat A) :
  is_empty src = false -> cvtColor L code src = inr (mat_map code src).
Proof. intros H. unfold cvtColor. now rewrite H. Qed.

Lemma cvtColor_empty {A B} (code : A -> B) (src : Mat A) :
  is_empty src = true -> cvtColor L code src = inl (CvError (empty_src_msg L)).
Proof. intros H. unfold cvtColor. now rewrite H. Qed.

Lemma enhance_nonempty (image : Mat pixel3) :
  is_empty image = false ->
  exists enhanced,
    enhance_lcd_image L image = inr enhanced /\
    rows enhanced = rows image /\ cols enhanced = cols image.
Proof.
  intros H. unfold enhance_lcd_image. rewrite cvtColor_nonempty by exact H.
  simpl. rewrite cvtColor_nonempty by exact H.
  eexists. split; [reflexivity|]. split; reflexivity.
Qed.

Lemma enhance_empty (image : Mat pixel3) :
  is_empty image = true ->
  enhance_lcd_image L image = inl (CvError (empty_src_msg L)).
Proof. intros H. unfold enhance_lcd_image. now rewrite cvtColor_empty. Qed.

Lemma threshold_two_levels (src : Mat Z) (thresh maxval : Z) :
  Forall (fun v => v = 0 \/ v = maxval) (data (threshold src thresh maxval)).
Proof.
  unfold threshold, mat_map; simpl. apply List.Forall_forall. intros v Hv.
  apply in_map_iff in Hv. destruct Hv as [u [Hu _]]. subst v.
  destruct (thresh <? u); [right | left]; reflexivity.
Qed.

Lemma preprocess_nonempty (image : Mat pixel3) :
  is_empty image = false ->
  preprocess_lcd_image L image
  = inr (threshold (normalize L (GaussianBlur L (mat_map (bgr2gray L) image))) 160 255).
Proof.
  intros H. unfold preprocess_lcd_image. now rewrite cvtColor_nonempty.
Qed.

(** C7.  For every colour image (a grid with at least one pixel),
    [preprocess_lcd_image] produces a mask: one value per pixel, as many
    rows and as many columns as the input, and every value is 0 or 255. *)
Theorem preprocess_mask_two_levels (image : Mat pixel3) :
  is_empty image = false ->
  exists mask,
    preprocess_lcd_image L image = inr mask /\
    rows mask = rows image /\ cols mask = cols image /\
    well_formed mask /\
    Forall (fun v => v = 0 \/ v = 255) (data mask).
Proof.
  intros H. rewrite preprocess_nonempty by exact H.
  eexists. split; [reflexivity|].
  split; [reflexivity|]. split; [reflexivity|]. split.
  - apply mat_map_well_formed, tabulate_well_formed.
  - apply threshold_two_levels.
Qed.

Lemma preprocess_empty (image : Mat pixel3) :
  is_empty image = true ->
  preprocess_lcd_image L image = inl (CvError (empty_src_msg L)).
Proof. intros H. unfold preprocess_lcd_image. now rewrite cvtColor_empty. Qed.

Lemma area_in_range_spec (cnt : contour) :
  area_in_range L cnt = true <->
  (50 # 1 < contourArea L cnt)%Q /\ (contourArea L cnt < 2000 # 1)%Q.
Proof.
  unfold area_in_range. rewrite andb_true_iff, !Qltb_lt. reflexivity.
Qed.

(** C2.  [extract_digit_regions] returns the contours found in the mask
    whose area is strictly between 50 and 2000, each as often as it was
    found, ordered by ascending x of their bounding rectangle. *)
Theorem extract_digit_regions_filtered_sorted (binary_image : Mat Z) :
  let found := findContours L binary_image in
  let out := extract_digit_regions L binary_image in
  Permutation out (List.filter (area_in_range L) found) /\
  (forall cnt, In cnt out <->
     In cnt found /\ (50 # 1 < contourArea L cnt)%Q /\ (contourArea L cnt < 2000 # 1)%Q) /\
  StronglySorted (fun a b => rect_x L a <= rect_x L b) out.
Proof.
  intros found out. unfold out, extract_digit_regions. fold found.
  split; [apply sorted_by_key_perm|]. split.
  - intros cnt. rewrite <- area_in_range_spec, <- filter_In.
    split; apply Permutation_in;
      [|symmetry]; apply sorted_by_key_perm.
  - apply (sorted_by_key_sorted (rect_x L)).
Qed.

(** Contours with the same x keep the order [findContours] gave them. *)
Lemma extract_digit_regions_stable (binary_image : Mat Z) (x : Z) :
  List.filter (fun c => rect_x L c =? x) (extract_digit_regions L binary_image)
  = List.filter (fun c => rect_x L c =? x)
      (List.filter (area_in_range L) (findContours L binary_image)).
Proof. apply sorted_by_key_stable. Qed.
End StageFacts.

(** C8 (as amended).  When the ROI lies inside the image and its width and
    height are not negative, the crop has exactly [w] columns and [h] rows. *)
Theorem crop_dimensions {A} (image : Mat A) (x y w h : Z) :
  0 <= x -> 0 <= y -> 0 <= w -> 0 <= h ->
  x + w <= Z.of_nat (cols image) -> y + h <= Z.of_nat (rows image) ->
  Z.of_nat (cols (crop image x y w h)) = w /\
  Z.of_nat (rows (crop image x y w h)) = h.
Proof.
  intros Hx Hy Hw Hh Hxw Hyh. unfold crop.
  destruct (slice_length_inside y h (Z.of_nat (rows image))) as [Ey Ly]; try assumption.
  destruct (slice_length_inside x w (Z.of_nat (cols image))) as [Ex Lx]; try assumption.
  rewrite Ey, Ex, Ly, Lx. simpl. lia.
Qed.

Lemma crop_dimensions_witness :
  Z.of_nat (cols (crop Ref.picture 1 0 2 2)) = 2 /\
  Z.of_nat (rows (crop Ref.picture 1 0 2 2)) = 2.
Proof. apply crop_dimensions; simpl; lia. Defined.

(** C8 as stated fails: an ROI of negative width and height meets the four
    conditions of the claim, and its crop has no column and no row. *)
Lemma crop_negative_size :
  0 <= 2 /\ 0 <= 1 /\
  2 + -1 <= Z.of_nat (cols Ref.picture) /\ 1 + -1 <= Z.of_nat (rows Ref.picture) /\
  Z.of_nat (cols (crop Ref.picture 2 1 (-1) (-1))) <> -1 /\
  Z.of_nat (rows (crop Ref.picture 2 1 (-1) (-1))) <> -1.
Proof. vm_compute. repeat split; congruence. Qed.

(** The two shapes of area 100 and 1024 are kept, the left one first; areas
    of exactly 50 and 2000 are left out. *)
Example extract_digit_regions_shapes :
  extract_digit_regions (Ref.lib_finding (fun _ => Ref.shapes)) (mkMat 0 0 [])
  = [Ref.box 100 5 10 10; Ref.box 200 0 32 32].
Proof. reflexivity. Qed.

Example preprocess_picture :
  preprocess_lcd_image Ref.lib Ref.picture = inr (mkMat 2 3 [0; 0; 0; 0; 255; 255]).
Proof. reflexivity. Qed.

Example crop_picture :
  crop Ref.picture 1 0 2 2
  = mkMat 2 2 [(57, 57, 57); (90, 90, 90); (122, 122, 122); (126, 126, 126)].
Proof. reflexivity. Qed.

Example crop_picture_from_the_end :
  crop Ref.picture (-2) 1 5 7 = mkMat 1 2 [(122, 122, 122); (126, 126, 126)].
Proof. reflexivity. Qed.

Lemma preprocess_mask_two_levels_witness :
  exists mask,
    preprocess_lcd_image Ref.lib Ref.picture = inr mask /\
    rows mask = 2%nat /\ cols mask = 3%nat /\
    well_formed mask /\
    Forall (fun v => v = 0 \/ v = 255) (data mask).
Proof. apply (preprocess_mask_two_levels Ref.lib Ref.picture). reflexivity. Defined.

(** ** Paths *)

Lemma append_nil_l (b : string) : "" +:+ b = b.
Proof. reflexivity. Qed.

Lemma append_cons (c : ascii) (a b : string) : String c a +:+ b = String c (a +:+ b).
Proof. reflexivity. Qed.


Lemma append_assoc (a b c : string) : (a +:+ b) +:+ c = a +:+ (b +:+ c).
Proof.
  induction a as [|x a IH]; [reflexivity|]. now rewrite !append_cons, IH.
Qed.

Lemma last_char_app (a b : string) :
  b <> EmptyString -> last_char (a +:+ b) = last_char b.
Proof.
  intros Hb. induction a as [|c a IH]; [reflexivity|].
  rewrite append_cons. simpl.
  destruct (a +:+ b) eqn:E; [|exact IH].
  destruct a; [rewrite append_nil_l in E; congruence | discriminate].
Qed.

Lemma path_join_suffix (a b : string) : exists pre, path_join a b = pre +:+ b.
Proof.
  unfold path_join. destruct (starts_with_sep b).
  - exists EmptyString. reflexivity.
  - destruct (String.eqb a "" || ends_with_sep a)%bool.
    + exists a. reflexivity.
    + exists (a +:+ "/"). now rewrite append_assoc.
Qed.

Lemma jpg_is_not_csv (a base suffix : string) :
  last_char suffix = Some "g"%char ->
  path_join a (base +:+ suffix) <> csv_path.
Proof.
  intros Hs Heq. destruct (path_join_suffix a (base +:+ suffix)) as [pre Hpre].
  rewrite Hpre in Heq. apply (f_equal last_char) in Heq.
  assert (Hne : suffix <> EmptyString) by (intros ->; discriminate).
  rewrite last_char_app, last_char_app, Hs in Heq; [discriminate | exact Hne |].
  destruct base; [exact Hne | discriminate].
Qed.

(** ** What leaves [meter_readings.csv] alone *)

Section FrameFacts.
Context (L : Library).

Lemma csv_untouched_refl (w : World L) : csv_untouched L w w.
Proof. split; reflexivity. Qed.

Lemma csv_untouched_trans (w1 w2 w3 : World L) :
  csv_untouched L w1 w2 -> csv_untouched L w2 w3 -> csv_untouched L w1 w3.
Proof. intros [F1 D1] [F2 D2]. split; [congruence | tauto]. Qed.

Lemma exists_in_untouched (w w' : World L) :
  csv_untouched L w w' -> exists_in L csv_path w' = exists_in L csv_path w.
Proof.
  intros [F D]. unfold exists_in. rewrite F. f_equal.
  apply bool_decide_ext. exact D.
Qed.

Lemma runs_keeps {A} (m : M L A) : runs_keeping_csv L m -> keeps_csv L m.
Proof. intros H w. destruct (H w) as (a & w' & E & F). now rewrite E. Qed.

Lemma runs_ret {A} (a : A) : runs_keeping_csv L (ret L a).
Proof. intros w. exists a, w. split; [reflexivity | apply csv_untouched_refl]. Qed.

Lemma keeps_raise {A} (e : exn) : keeps_csv L (raise L (A := A) e).
Proof. intros w. apply csv_untouched_refl. Qed.

Lemma keeps_lift {A} (r : exn + A) : keeps_csv L (lift L r).
Proof. intros w. apply csv_untouched_refl. Qed.

Lemma keeps_bind {A B} (m : M L A) (k : A -> M L B) :
  keeps_csv L m -> (forall a, keeps_csv L (k a)) -> keeps_csv L (bind L m k).
Proof.
  intros Hm Hk w. unfold bind. specialize (Hm w).
  destruct (m w) as [[e|a] w1]; simpl in *; [exact Hm|].
  eapply csv_untouched_trans; [exact Hm | apply Hk].
Qed.

Lemma runs_bind {A B} (m : M L A) (k : A -> M L B) :
  runs_keeping_csv L m -> (forall a, runs_keeping_csv L (k a)) ->
  runs_keeping_csv L (bind L m k).
Proof.
  intros Hm Hk w. destruct (Hm w) as (a & w1 & E1 & F1).
  destruct (Hk a w1) as (b & w2 & E2 & F2).
  exists b, w2. unfold bind. rewrite E1. split; [exact E2|].
  eapply csv_untouched_trans; eassumption.
Qed.

Lemma runs_try {A} (m : M L A) (h : exn -> M L A) :
  keeps_csv L m -> (forall e, runs_keeping_csv L (h e)) ->
  runs_keeping_csv L (try_catch L m h).
Proof.
  intros Hm Hh w. unfold try_catch. specialize (Hm w).
  destruct (m w) as [[e|a] w1]; simpl in *.
  - destruct (Hh e w1) as (b & w2 & E2 & F2). exists b, w2.
    split; [exact E2|]. eapply csv_untouched_trans; eassumption.
  - exists a, w1. split; [reflexivity | exact Hm].
Qed.

Lemma runs_emit (e : event L) : runs_keeping_csv L (emit L e).
Proof. intros w. eexists _, _. split; [reflexivity | split; reflexivity]. Qed.

Lemma runs_print (line : string) : runs_keeping_csv L (print L line).
Proof. apply runs_emit. Qed.

Lemma runs_sleep (s : float L) : runs_keeping_csv L (sleep L s).
Proof. apply runs_emit. Qed.

Lemma runs_now : runs_keeping_csv L (now L).
Proof. intros w. eexists _, _. split; [reflexivity | split; reflexivity]. Qed.

Lemma keeps_requests_get (url : string) : keeps_csv L (requests_get L url).
Proof.
  intros w. unfold requests_get.
  destruct (network L w (requests L w) url); split; reflexivity.
Qed.

Lemma runs_os_path_exists (path : string) : runs_keeping_csv L (os_path_exists L path).
Proof. intros w. eexists _, _. split; [reflexivity | split; reflexivity]. Qed.

Lemma runs_imread (path : string) : runs_keeping_csv L (imread L path).
Proof. intros w. eexists _, _. split; [reflexivity | split; reflexivity]. Qed.

Lemma runs_os_makedirs (path : string) :
  path <> csv_path -> runs_keeping_csv L (os_makedirs L path).
Proof.
  intros Hne w. eexists _, _. split; [reflexivity|].
  split; simpl; [reflexivity|]. split; intros H.
  - apply elem_of_union in H as [H|H]; [|exact H].
    apply elem_of_singleton in H. congruence.
  - apply elem_of_union. right. exact H.
Qed.

Lemma set_file_untouched (path content : string) (w : World L) :
  path <> csv_path -> csv_untouched L w (set_file L path content w).
Proof.
  intros Hne. split; simpl; [|reflexivity]. now apply lookup_insert_ne.
Qed.

Lemma runs_write_file (path mode content : string) :
  path <> csv_path -> runs_keeping_csv L (write_file L path mode content).
Proof.
  intros Hne w. eexists _, _. split; [reflexivity|]. now apply set_file_untouched.
Qed.

Lemma runs_imwrite (path : string) (img : Mat pixel3) :
  path <> csv_path -> runs_keeping_csv L (imwrite L path img).
Proof.
  intros Hne w. eexists _, _. split; [reflexivity|]. now apply set_file_untouched.
Qed.

Lemma runs_for_each {A} (l : list A) (body : A -> M L unit) :
  (forall x, runs_keeping_csv L (body x)) -> runs_keeping_csv L (for_each L l body).
Proof.
  intros Hb. induction l as [|x l IH]; simpl; [apply runs_ret|].
  apply runs_bind; [apply Hb | intros _; exact IH].
Qed.

Lemma download_path_not_csv (filename : string) :
  path_join "meter_images" ("meter_" +:+ filename) <> csv_path.
Proof. intros H. vm_compute in H. discriminate. Qed.

Lemma runs_download_image (url : string) :
  runs_keeping_csv L (download_image L url "meter_images").
Proof.
  unfold download_image. apply runs_try.
  - apply keeps_bind; [apply runs_keeps, runs_os_path_exists|]. intros ex.
    apply keeps_bind.
    { apply runs_keeps. destruct ex; simpl; [apply runs_ret|].
      apply runs_bind; [now apply runs_os_makedirs | intros _; apply runs_print]. }
    intros _. apply keeps_bind; [apply runs_keeps, runs_now|]. intros t.
    apply keeps_bind; [apply runs_keeps, runs_print|]. intros _.
    apply keeps_bind; [apply keeps_requests_get|]. intros response.
    apply runs_keeps. destruct (fst response =? 200).
    + apply runs_bind; [apply runs_write_file, download_path_not_csv|]. intros _.
      apply runs_bind; [apply runs_print | intros _; apply runs_ret].
    + apply runs_bind; [apply runs_print | intros _; apply runs_ret].
  - intros e. apply runs_bind; [apply runs_print | intros _; apply runs_ret].
Qed.

Lemma keeps_process_meter_image (image_path : string) (roi : list Z) :
  keeps_csv L (process_meter_image L image_path roi).
Proof.
  unfold process_meter_image.
  apply keeps_bind; [apply runs_keeps, runs_imread|]. intros [image|]; [|apply keeps_raise].
  apply keeps_bind.
  { unfold unpack4. destruct roi as [|x [|y [|w [|h [|]]]]];
      try apply keeps_raise. apply runs_keeps, runs_ret. }
  intros [[[x y] w] h].
  apply keeps_bind; [apply keeps_lift|]. intros enhanced.
  apply keeps_bind; [apply keeps_lift|]. intros processed.
  apply runs_keeps.
  apply runs_bind; [apply runs_imwrite, jpg_is_not_csv; reflexivity|]. intros _.
  apply runs_bind; [apply runs_imwrite, jpg_is_not_csv; reflexivity|]. intros _.
  apply runs_bind; [apply runs_print|]. intros _.
  apply runs_bind; [apply runs_print | intros _; apply runs_ret].
Qed.

Lemma runs_capture_iteration (url : string) (roi : list Z) (capture_count : Z)
    (interval : float L) (i : Z) (readings : list record) :
  runs_keeping_csv L (capture_iteration L url roi capture_count interval i readings).
Proof.
  unfold capture_iteration.
  apply runs_bind; [apply runs_download_image|]. intros image_path.
  destruct (negb (truthy image_path)).
  - apply runs_bind; [apply runs_print | intros _; apply runs_ret].
  - apply runs_bind.
    + apply runs_try.
      * apply keeps_bind; [apply keeps_process_meter_image|]. intros reading.
        apply keeps_bind; [apply runs_keeps, runs_now|]. intros t.
        apply runs_keeps.
        apply runs_bind; [apply runs_print | intros _; apply runs_ret].
      * intros e. apply runs_bind; [apply runs_print | intros _; apply runs_ret].
    + intros readings'. apply runs_bind; [|intros _; apply runs_ret].
      destruct (i <? capture_count - 1); [apply runs_sleep | apply runs_ret].
Qed.

Lemma runs_capture_loop (url : string) (roi : list Z) (capture_count : Z)
    (interval : float L) (indices : list Z) (readings : list record) :
  runs_keeping_csv L (capture_loop L url roi capture_count interval indices readings).
Proof.
  revert readings. induction indices as [|i rest IH]; intros readings; simpl.
  - apply runs_ret.
  - apply runs_bind; [apply runs_capture_iteration | intros rs; apply IH].
Qed.

Lemma bind_runs {A B} (m : M L A) (k : A -> M L B) (w : World L) :
  runs_keeping_csv L m ->
  exists a w1, csv_untouched L w w1 /\ bind L m k w = k a w1.
Proof.
  intros Hm. destruct (Hm w) as (a & w1 & E & F). exists a, w1.
  split; [exact F|]. unfold bind. now rewrite E.
Qed.

Ltac run_with H a :=
  lazymatch goal with
  | |- context [bind ?L ?m ?k ?w] =>
      let w1 := fresh "w" in
      let F := fresh "F" in
      let E := fresh "E" in
      destruct (bind_runs m k w) as (a & w1 & F & E);
      [solve [apply H]|]; rewrite E; clear E; cbv beta
  end.

Lemma runs_summary (readings : list record) :
  runs_keeping_csv L
    (if nonempty readings
     then bind L (print L (nl +:+ "Timestamp                Reading (kWh)")) (fun _ =>
          bind L (print L (repeat_string "-" 40)) (fun _ =>
          for_each L readings (fun r => print L (fst r +:+ "    " +:+ snd r))))
     else ret L tt).
Proof.
  destruct (nonempty readings); [|apply runs_ret].
  apply runs_bind; [apply runs_print|]. intros _.
  apply runs_bind; [apply runs_print|]. intros _.
  apply runs_for_each. intros r. apply runs_print.
Qed.

(** What one session does to [meter_readings.csv]: nothing when it has no
    record; otherwise the rows are added to what the file held, or to a
    fresh header when there was no such file. *)
Lemma capture_and_process_csv (url : string) (roi : list Z) (capture_count : Z)
    (interval : float L) (w : World L) :
  exists readings w',
    capture_and_process L url roi capture_count interval w = (inr readings, w') /\
    (csv_path ∈ dirs L w' <-> csv_path ∈ dirs L w) /\
    files L w' !! csv_path =
      if nonempty readings
      then Some ((if exists_in L csv_path w
                  then default "" (files L w !! csv_path)
                  else csv_header) +:+ csv_rows readings)
      else files L w !! csv_path.
Proof.
  unfold capture_and_process.
  run_with runs_print u1. run_with runs_print u2.
  run_with runs_capture_loop readings.
  run_with runs_print u3. run_with runs_print u4. run_with runs_print u5.
  run_with (runs_summary readings) u6.
  assert (Fall : csv_untouched L w w6).
  { repeat (eapply csv_untouched_trans; [eassumption|]). apply csv_untouched_refl. }
  exists readings.
  destruct readings as [|r rs].
  - exists w6. split; [reflexivity|]. destruct Fall as [Ff Fd]. split; assumption.
  - eexists. split; [reflexivity|]. simpl.
    rewrite (exists_in_untouched _ _ Fall). destruct Fall as [Ff Fd].
    split; [exact Fd|]. rewrite lookup_insert_eq.
    destruct (exists_in L csv_path w); simpl; rewrite ?Ff; reflexivity.
Qed.
End FrameFacts.

(** ** Running the program *)

Section RunFacts.
Context (L : Library).

Lemma asked_refl (w : World L) : asked L 0 w w.
Proof. split; reflexivity. Qed.

Lemma asked_trans (n m : nat) (w1 w2 w3 : World L) :
  asked L n w1 w2 -> asked L m w2 w3 -> asked L (m + n) w1 w3.
Proof. intros [N1 R1] [N2 R2]. split; [congruence | lia]. Qed.

Lemma download_path_eq (timestamp : string) :
  path_join "meter_images" ("meter_" +:+ timestamp +:+ ".jpg")
  = "meter_images/meter_" +:+ timestamp +:+ ".jpg".
Proof. reflexivity. Qed.



(** A picture that decodes and an ROI that selects at least one pixel of
    it give the reading. *)
Lemma process_meter_image_ok (path bytes : string) (image : Mat pixel3)
    (x y w h : Z) (world : World L) :
  files L world !! path = Some bytes ->
  imdecode L bytes = Some image ->
  is_empty (crop image x y w h) = false ->
  exists world',
    process_meter_image L path [x; y; w; h] world = (inr "16737", world') /\
    asked L 0 world world'.
Proof.
  intros Hfile Hdec Hroi.
  destruct (enhance_nonempty L _ Hroi) as (enhanced & Henh & Hr & Hc).
  assert (Hne : is_empty enhanced = false).
  { unfold is_empty in *. now rewrite Hr, Hc. }
  unfold process_meter_image, bind, imread. rewrite Hfile, Hdec. simpl.
  rewrite Henh. simpl. rewrite (preprocess_nonempty L _ Hne). simpl.
  eexists. split; [reflexivity|]. split; reflexivity.
Qed.
End RunFacts.

Lemma bind_ret_eq (L : Library) {A B} (m : M L A) (k : A -> M L B)
    (w : World L) (a : A) (w1 : World L) :
  m w = (inr a, w1) -> bind L m k w = k a w1.
Proof. intros E. unfold bind. now rewrite E. Qed.

(** Replace [bind m k w] by [k a w1] once [m w] is known to return [a]. *)
Ltac step_eq E :=
  lazymatch type of E with
  | ?m ?w = (inr ?a, ?w1) => rewrite (bind_ret_eq _ m _ w a w1 E)
  end.

Section SessionFacts.
Context (L : Library).


End SessionFacts.

(** ** The claims about the program *)






(** C6.  When the ROI argument does not parse to exactly four integers,
    [main] returns 1 and the world is what it was but for one printed line:
    no request, no file read or written, no clock read, no sleep. *)
Theorem main_rejects_malformed_roi (L : Library) (args : Args L) (world : World L) :
  (forall x y w h, parse_roi L (arg_roi L args) <> Some [x; y; w; h]) ->
  exists line,
    main L args world
    = (inr 1, mkWorld L (files L world) (dirs L world) (log L world ++ [EvPrint L line])
                      (clock L world) (clock_reads L world)
                      (network L world) (requests L world)).
Proof.
  intros Hroi. unfold main.
  destruct (parse_roi L (arg_roi L args)) as [roi|].
  - destruct roi as [|x [|y [|w [|h [|extra roi]]]]];
      try (eexists; reflexivity).
    exfalso. now apply (Hroi x y w h).
  - eexists. reflexivity.
Qed.

Lemma main_rejects_malformed_roi_witness :
  exists line,
    main Ref.lib (mkArgs Ref.lib Ref.url "1,2,3" 1 1 None) (Ref.world [Ref.ok])
    = (inr 1, mkWorld Ref.lib ∅ ∅ [EvPrint Ref.lib line] Ref.tick 0
                      (Ref.camera [Ref.ok]) 0).
Proof.
  apply (main_rejects_malformed_roi Ref.lib
           (mkArgs Ref.lib Ref.url "1,2,3" 1 1 None) (Ref.world [Ref.ok])).
  intros x y w h. vm_compute. discriminate.
Defined.

Section SessionClaims.
Context (L : Library).


(** C10.  A session that returns no record leaves [meter_readings.csv] as
    it was: not created, not appended to, and no directory of that name
    made. *)
Theorem no_reading_leaves_csv (url : string) (roi : list Z) (capture_count : Z)
    (interval : float L) (world : World L) :
  fst (capture_and_process L url roi capture_count interval world) = inr [] ->
  exists world',
    capture_and_process L url roi capture_count interval world = (inr [], world') /\
    files L world' !! csv_path = files L world !! csv_path /\
    (csv_path ∈ dirs L world' <-> csv_path ∈ dirs L world).
Proof.
  intros Hnone.
  destruct (capture_and_process_csv L url roi capture_count interval world)
    as (readings & world' & E & D & F).
  rewrite E in Hnone. simpl in Hnone. injection Hnone as ->.
  exists world'. split; [exact E|]. split; [exact F | exact D].
Qed.

(** A session always runs to its end. *)
Lemma capture_and_process_returns (url : string) (roi : list Z) (capture_count : Z)
    (interval : float L) (world : World L) :
  exists readings world',
    capture_and_process L url roi capture_count interval world = (inr readings, world').
Proof.
  destruct (capture_and_process_csv L url roi capture_count interval world)
    as (readings & world' & E & _). now exists readings, world'.
Qed.

Lemma csv_rows_app (a b : list record) :
  csv_rows (a ++ b) = csv_rows a +:+ csv_rows b.
Proof.
  induction a as [|r a IH]; [reflexivity|].
  simpl. now rewrite IH, append_assoc.
Qed.


End SessionClaims.


Lemma no_reading_leaves_csv_witness :
  exists world',
    capture_and_process Ref.lib Ref.url DEFAULT_ROI 1 1 (Ref.world [Ref.down])
    = (inr [], world') /\
    files Ref.lib world' !! csv_path = None /\
    (csv_path ∈ dirs Ref.lib world' <-> csv_path ∈ (∅ : gset string)).
Proof.
  apply (no_reading_leaves_csv Ref.lib Ref.url DEFAULT_ROI 1 1 (Ref.world [Ref.down])).
  vm_compute. reflexivity.
Defined.



(** C5, where the code departs from it: with two iterations and a camera
    that fails at the first, both requests are made and nothing is slept in
    between; when instead the first picture arrives and cannot be decoded,
    the pause is taken. *)
Theorem no_pause_after_failed_download :
  let session := capture_and_process Ref.lib Ref.url [0; 0; 2; 2] 2 5 in
  requests Ref.lib (snd (session (Ref.world [Ref.down; Ref.ok]))) = 2%nat /\
  sleeps Ref.lib (snd (session (Ref.world [Ref.down; Ref.ok]))) = [] /\
  sleeps Ref.lib (snd (session (Ref.world [HttpResponse 200 "junk"; Ref.ok]))) = [5].
Proof. vm_compute. repeat split. Qed.

(** * Further properties *)

(** ** The crop, for any ROI *)

Lemma slice_clamp_range (len v : Z) :
  0 <= len -> 0 <= slice_clamp len v <= len.
Proof. intros H. unfold slice_clamp. destruct (Z.ltb_spec v 0); lia. Qed.

Lemma slice_length_fits (start stop len : Z) :
  0 <= len ->
  (slice_length start stop len = 0 \/
   Z.to_nat (fst (slice_indices start stop len)) + slice_length start stop len
   <= Z.to_nat len)%nat.
Proof.
  intros H. unfold slice_length, slice_indices. simpl.
  pose proof (slice_clamp_range len start H).
  pose proof (slice_clamp_range len stop H).
  lia.
Qed.

Lemma crop_shape {A} (image : Mat A) (x y w h : Z) :
  rows (crop image x y w h) = slice_length y (y + h) (Z.of_nat (rows image)) /\
  cols (crop image x y w h) = slice_length x (x + w) (Z.of_nat (cols image)).
Proof. split; reflexivity. Qed.

(** X1.  Whatever the ROI (outside the image, negative, of any size), the
    crop is a grid with one value per pixel that has no more rows and no
    more columns than the image. *)
Theorem crop_within_image {A} (image : Mat A) (x y w h : Z) :
  well_formed image ->
  well_formed (crop image x y w h) /\
  (rows (crop image x y w h) <= rows image)%nat /\
  (cols (crop image x y w h) <= cols image)%nat.
Proof.
  intros Hwf. destruct (crop_shape image x y w h) as [Er Ec].
  pose proof (slice_length_fits y (y + h) (Z.of_nat (rows image)) ltac:(lia)) as Hr.
  pose proof (slice_length_fits x (x + w) (Z.of_nat (cols image)) ltac:(lia)) as Hc.
  unfold slice_indices in Hr, Hc. cbn [fst] in Hr, Hc.
  split; [|rewrite Er, Ec; lia].
  unfold well_formed, crop, slice_indices. cbn [rows cols data].
  rewrite (length_flat_map_const _ (slice_length x (x + w) (Z.of_nat (cols image)))).
  { now rewrite length_seq. }
  intros i Hi. apply in_seq in Hi. rewrite length_take, length_drop.
  unfold well_formed in Hwf. rewrite Hwf.
  destruct Hr as [Hr|Hr]; [lia|].
  destruct Hc as [Hc|Hc]; [rewrite Hc; lia|].
  assert (S i <= rows image)%nat by lia.
  nia.
Qed.

Lemma crop_within_image_witness :
  well_formed (crop Ref.picture (-7) 1 100 (-3)) /\
  (rows (crop Ref.picture (-7) 1 100 (-3)) <= 2)%nat /\
  (cols (crop Ref.picture (-7) 1 100 (-3)) <= 3)%nat.
Proof. apply (crop_within_image Ref.picture). reflexivity. Defined.

Lemma nth_flat_map_rows {A} (f : nat -> list A) (n : nat) (l : list nat) (d : A) :
  (forall k, In k l -> length (f k) = n) ->
  forall i j, (i < length l)%nat -> (j < n)%nat ->
  nth (i * n + j) (flat_map f l) d = nth j (f (nth i l O)) d.
Proof.
  induction l as [|a l IH]; intros Hlen i j Hi Hj; simpl in Hi; [lia|].
  simpl. destruct i as [|i].
  - simpl. apply app_nth1. rewrite Hlen by (left; reflexivity). exact Hj.
  - rewrite app_nth2 by (rewrite Hlen by (left; reflexivity); simpl; lia).
    rewrite Hlen by (left; reflexivity).
    replace (S i * n + j - n)%nat with (i * n + j)%nat by (simpl; lia).
    simpl. apply IH; [|lia|exact Hj].
    intros k Hk. apply Hlen. right. exact Hk.
Qed.

(** X2.  For an ROI inside the image, the pixel at row [i], column [j] of
    the crop is the pixel at row [y + i], column [x + j] of the image. *)
Theorem crop_pixels {A} (image : Mat A) (x y w h : Z) (i j : nat) (d : A) :
  well_formed image ->
  0 <= x -> 0 <= y ->
  x + w <= Z.of_nat (cols image) -> y + h <= Z.of_nat (rows image) ->
  Z.of_nat i < h -> Z.of_nat j < w ->
  nth (i * Z.to_nat w + j) (data (crop image x y w h)) d
  = nth ((Z.to_nat y + i) * cols image + (Z.to_nat x + j)) (data image) d.
Proof.
  intros Hwf Hx Hy Hxw Hyh Hi Hj. unfold crop.
  destruct (slice_length_inside y h (Z.of_nat (rows image))) as [Ey Ly]; try lia.
  destruct (slice_length_inside x w (Z.of_nat (cols image))) as [Ex Lx]; try lia.
  rewrite Ey, Ex, Ly, Lx. cbn [data].
  assert (Hrows : forall k, In k (seq (Z.to_nat y) (Z.to_nat h)) ->
            length (take (Z.to_nat w) (drop (k * cols image + Z.to_nat x) (data image)))
            = Z.to_nat w).
  { intros k Hk. apply in_seq in Hk. rewrite length_take, length_drop.
    unfold well_formed in Hwf. rewrite Hwf.
    assert (S k <= rows image)%nat by lia.
    assert (Z.to_nat x + Z.to_nat w <= cols image)%nat by lia.
    nia. }
  rewrite (nth_flat_map_rows _ (Z.to_nat w) _ d Hrows) by (rewrite ?length_seq; lia).
  rewrite seq_nth by lia.
  rewrite nth_firstn.
  destruct (Nat.ltb_spec j (Z.to_nat w)); [|lia].
  rewrite nth_skipn. f_equal. lia.
Qed.

Lemma crop_pixels_witness :
  nth (1 * Z.to_nat 2 + 0) (data (crop Ref.picture 1 0 2 2)) (0, 0, 0)
  = nth ((Z.to_nat 0 + 1) * 3 + (Z.to_nat 1 + 0)) (data Ref.picture) (0, 0, 0).
Proof.
  apply (crop_pixels Ref.picture 1 0 2 2 1 0 (0, 0, 0)); try reflexivity; simpl; lia.
Defined.

(** ** The contrast enhancer *)

Lemma length_zip3 (n : nat) (l a b : list Z) :
  length l = n -> length a = n -> length b = n -> length (zip3 l a b) = n.
Proof.
  revert l a b. induction n as [|n IH]; intros [|x l] [|y a] [|z b];
    simpl; intros Hl Ha Hb; try discriminate; try reflexivity.
  f_equal. apply IH; congruence.
Qed.


Section EnhancerFacts.
Context (L : Library).

Lemma enhance_value (image : Mat pixel3) :
  is_empty image = false ->
  enhance_lcd_image L image
  = inr (mat_map (lab2bgr L)
           (merge (clahe_apply L (mat_map (fun p => fst (fst p)) (mat_map (bgr2lab L) image)))
                  (mat_map (fun p => snd (fst p)) (mat_map (bgr2lab L) image))
                  (mat_map (fun p => snd p) (mat_map (bgr2lab L) image)))).
Proof.
  intros H. unfold enhance_lcd_image. rewrite cvtColor_nonempty by exact H.
  simpl. now rewrite cvtColor_nonempty by exact H.
Qed.

(** X3.  On a picture with at least one pixel the enhancer returns a
    picture of the same number of rows and columns, again with one value
    per pixel. *)
Theorem enhance_preserves_shape (image : Mat pixel3) :
  well_formed image -> is_empty image = false ->
  exists enhanced,
    enhance_lcd_image L image = inr enhanced /\
    rows enhanced = rows image /\ cols enhanced = cols image /\
    well_formed enhanced.
Proof.
  intros Hwf Hne. rewrite (enhance_value image Hne). eexists. split; [reflexivity|].
  split; [reflexivity|]. split; [reflexivity|].
  unfold well_formed in *. cbn [mat_map merge clahe_apply tabulate rows cols data].
  rewrite length_map. apply length_zip3.
  - apply (tabulate_well_formed (rows image) (cols image)).
  - now rewrite !length_map.
  - now rewrite !length_map.
Qed.

End EnhancerFacts.

Lemma enhance_preserves_shape_witness :
  exists enhanced,
    enhance_lcd_image Ref.lib Ref.picture = inr enhanced /\
    rows enhanced = 2%nat /\ cols enhanced = 3%nat /\ well_formed enhanced.
Proof. apply (enhance_preserves_shape Ref.lib Ref.picture); reflexivity. Defined.


(** ** The image source *)

Section DownloadFacts.
Context (L : Library).






End DownloadFacts.


(** ** Paths of the pictures *)








(** ** Processing one picture *)

Section ProcessFacts.
Context (L : Library).

Lemma process_meter_image_unreadable_early (path : string) (roi : list Z) (world : World L) :
  match files L world !! path with
  | Some bytes => imdecode L bytes = None
  | None => True
  end ->
  process_meter_image L path roi world
  = (inl (ValueError ("Could not read image: " +:+ path)), world).
Proof.
  intros H. unfold process_meter_image, bind, imread.
  destruct (files L world !! path); [rewrite H|]; reflexivity.
Qed.

(** X7.  When the file is missing or does not decode, [process_meter_image]
    raises [ValueError] naming the path, and has done nothing: no file is
    written and nothing is printed. *)
Theorem process_meter_image_unreadable (path : string) (roi : list Z) (world : World L) :
  match files L world !! path with
  | Some bytes => imdecode L bytes = None
  | None => True
  end ->
  process_meter_image L path roi world
  = (inl (ValueError ("Could not read image: " +:+ path)), world).
Proof. apply process_meter_image_unreadable_early. Qed.

(** X8.  When the ROI selects no pixel of the picture, the colour
    conversion raises and [process_meter_image] has done nothing: no
    annotated picture is written and nothing is printed. *)
Theorem process_meter_image_empty_crop (path bytes : string) (image : Mat pixel3)
    (x y w h : Z) (world : World L) :
  files L world !! path = Some bytes ->
  imdecode L bytes = Some image ->
  is_empty (crop image x y w h) = true ->
  process_meter_image L path [x; y; w; h] world
  = (inl (CvError (empty_src_msg L)), world).
Proof.
  intros Hfile Hdec Hroi. unfold process_meter_image, bind, imread.
  rewrite Hfile, Hdec. simpl. now rewrite (enhance_empty L _ Hroi).
Qed.

End ProcessFacts.

Lemma process_meter_image_unreadable_witness :
  process_meter_image Ref.lib "absent.jpg" [0; 0; 2; 2] Ref.disk
  = (inl (ValueError ("Could not read image: " +:+ "absent.jpg")), Ref.disk).
Proof. apply (process_meter_image_unreadable Ref.lib "absent.jpg"). exact I. Defined.

Lemma process_meter_image_empty_crop_witness :
  process_meter_image Ref.lib "meter.jpg" [5; 0; 2; 2] Ref.disk
  = (inl (CvError (empty_src_msg Ref.lib)), Ref.disk).
Proof.
  apply (process_meter_image_empty_crop Ref.lib "meter.jpg" Ref.frame Ref.picture);
    reflexivity.
Defined.

(** ** One turn of the capture loop *)

Section IterationFacts.
Context (L : Library).

Lemma effects_refl (w : World L) : effects L 0 [] w w.
Proof. split; [reflexivity|]. split; [reflexivity|]. now rewrite app_nil_r. Qed.


Lemma bind_raise_eq {A B} (m : M L A) (k : A -> M L B) (w : World L) (e : exn) (w1 : World L) :
  m w = (inl e, w1) -> bind L m k w = (inl e, w1).
Proof. intros E. unfold bind. now rewrite E. Qed.




(** Whatever happens to one picture, the camera is not asked and no pause
    is taken; a reading that comes back is the constant. *)
Lemma process_meter_image_effects (path : string) (roi : list Z) (w : World L) :
  exists r w',
    process_meter_image L path roi w = (r, w') /\
    effects L 0 [] w w' /\
    match r with inr reading => reading = "16737" | inl _ => True end.
Proof.
  destruct (files L w !! path) as [bytes|] eqn:Hfile.
  2: { eexists _, _. split; [apply process_meter_image_unreadable_early|];
       [now rewrite Hfile|]. split; [apply effects_refl | exact I]. }
  destruct (imdecode L bytes) as [image|] eqn:Hdec.
  2: { eexists _, _. split; [apply process_meter_image_unreadable_early|];
       [now rewrite Hfile|]. split; [apply effects_refl | exact I]. }
  destruct roi as [|x [|y [|w0 [|h [|extra roi]]]]];
    try (eexists _, _; split;
         [unfold process_meter_image, bind, imread; rewrite Hfile, Hdec; reflexivity|];
         split; [apply effects_refl | exact I]).
  destruct (is_empty (crop image x y w0 h)) eqn:Hroi.
  - eexists _, _. split.
    + unfold process_meter_image, bind, imread. rewrite Hfile, Hdec. simpl.
      now rewrite (enhance_empty L _ Hroi).
    + split; [apply effects_refl | exact I].
  - destruct (process_meter_image_ok L path bytes image x y w0 h w Hfile Hdec Hroi)
      as (w' & E & [N R]).
    exists (inr "16737"), w'. split; [exact E|]. split; [|reflexivity].
    split; [exact N|]. split; [exact R|].
    clear - E Hfile Hdec Hroi. revert E.
    destruct (enhance_nonempty L _ Hroi) as (enhanced & Henh & Hr & Hc).
    assert (Hne : is_empty enhanced = false).
    { unfold is_empty in *. now rewrite Hr, Hc. }
    destruct w as [f d l c cr n r]. cbn [files] in Hfile.
    unfold process_meter_image, bind at 1, imread at 1. cbn [files].
    rewrite Hfile, Hdec. cbn [unpack4 ret bind fst]. unfold lift. rewrite Henh.
    cbv [bind imwrite print emit set_file ret
         files dirs log clock clock_reads network requests].
    rewrite (preprocess_nonempty L _ Hne).
    cbv [bind imwrite print emit set_file ret
         files dirs log clock clock_reads network requests].
    intros E. injection E as <-. unfold sleeps. cbn [log].
    rewrite !flat_map_app. cbn [flat_map app]. now rewrite !app_nil_r.
Qed.
End IterationFacts.

Section LoopFacts.
Context (L : Library).




End LoopFacts.

(** ** A whole session *)

Section SessionEffects.
Context (L : Library).










End SessionEffects.

(** ** The command line *)

Section MainFacts.
Context (L : Library).


(** X15.  [main] never raises: whatever the arguments and the state of the
    world, it returns exit code 0 or 1. *)
Theorem main_exit_code (args : Args L) (w : World L) :
  exists code w', main L args w = (inr code, w') /\ (code = 0 \/ code = 1).
Proof.
  unfold main. destruct (parse_roi L (arg_roi L args)) as [roi|].
  2: { eexists _, _. split; [reflexivity | right; reflexivity]. }
  destruct (negb (length roi =? 4)%nat).
  { eexists _, _. split; [reflexivity | right; reflexivity]. }
  unfold try_catch. destruct (truthy (arg_image L args)).
  - unfold bind at 1, os_path_exists at 1.
    destruct (negb (exists_in L (default "" (arg_image L args)) w)).
    + eexists _, _. split; [reflexivity | right; reflexivity].
    + destruct (process_meter_image_effects L (default "" (arg_image L args)) roi w)
        as ([e|reading] & w1 & E & _).
      * rewrite (bind_raise_eq L _ _ _ _ _ E).
        eexists _, _. split; [reflexivity | right; reflexivity].
      * step_eq E. eexists _, _. split; [reflexivity | left; reflexivity].
  - destruct (capture_and_process_returns L (arg_url L args) roi (arg_count L args)
                (arg_interval L args) w) as (readings & w1 & E).
    step_eq E. eexists _, _. split; [reflexivity | left; reflexivity].
Qed.


(** X17.  With [--image] naming a path that does not exist, [main] exits
    with 1 after one printed line, without trying to read or process
    anything. *)
Theorem main_image_missing (args : Args L) (x y w h : Z) (path : string) (world : World L) :
  parse_roi L (arg_roi L args) = Some [x; y; w; h] ->
  arg_image L args = Some path -> truthy (Some path) = true ->
  exists_in L path world = false ->
  main L args world
  = (inr 1, mkWorld L (files L world) (dirs L world)
              (log L world ++ [EvPrint L ("Error: Image file not found: " +:+ path)])
              (clock L world) (clock_reads L world) (network L world) (requests L world)).
Proof.
  intros Hroi Himg Htruthy Habsent. unfold main.
  rewrite Hroi, Himg, Htruthy. cbn [length Nat.eqb negb default]. unfold id.
  unfold try_catch, bind at 1, os_path_exists at 1. rewrite Habsent. reflexivity.
Qed.

End MainFacts.





Lemma main_image_missing_witness :
  main Ref.lib (mkArgs Ref.lib Ref.url "0,0,2,2" 1 5 (Some "absent.jpg")) Ref.disk
  = (inr 1, mkWorld Ref.lib (files Ref.lib Ref.disk) (dirs Ref.lib Ref.disk)
              (log Ref.lib Ref.disk
               ++ [EvPrint Ref.lib ("Error: Image file not found: " +:+ "absent.jpg")])
              (clock Ref.lib Ref.disk) (clock_reads Ref.lib Ref.disk)
              (network Ref.lib Ref.disk) (requests Ref.lib Ref.disk)).
Proof.
  apply (main_image_missing Ref.lib
           (mkArgs Ref.lib Ref.url "0,0,2,2" 1 5 (Some "absent.jpg")) 0 0 2 2 "absent.jpg"
           Ref.disk); reflexivity.
Defined.


(** ** Order of the digit candidates *)

(** X19.  The ordering is stable: among the candidates whose bounding
    rectangles start at the same x, the order is the one in which
    [findContours] found them. *)
Theorem extract_digit_regions_keeps_order (L : Library) (binary_image : Mat Z) (x : Z) :
  List.filter (fun cnt => rect_x L cnt =? x) (extract_digit_regions L binary_image)
  = List.filter (fun cnt => (rect_x L cnt =? x) && area_in_range L cnt)%bool
      (findContours L binary_image).
Proof.
  unfold extract_digit_regions. rewrite sorted_by_key_stable.
  induction (findContours L binary_image) as [|cnt found IH]; [reflexivity|].
  cbn [List.filter]. destruct (area_in_range L cnt); cbn [List.filter].
  - rewrite andb_true_r. destruct (rect_x L cnt =? x); now rewrite IH.
  - now rewrite andb_false_r.
Qed.
